(** * The step-workflow engine of [Expert/challenge_1_workflow_engine.py]

    A shallow embedding of the [Step] interface, the three concrete steps
    [StepA], [StepB], [StepC] and the [FlowEngine] class, followed by the
    properties of the engine's registration methods and of its [run] loop. *)

From Stdlib Require Import ZArith.
From stdpp Require Import gmap strings list fin_maps.

Local Open Scope string_scope.

(** ** Python values and exceptions *)

(** A step instance is a Python object, hashed and compared by identity (no
    [__eq__]/[__hash__] override in the source).  A reference to a step is
    therefore modelled by the identity of the object it points to. *)
Definition StepRef : Type := positive.

(** A raised exception: its class name and its message. *)
Inductive Exn : Type :=
| PyExc (cls : string) (msg : string).

#[global] Instance Exn_eq_dec : EqDecision Exn.
Proof. solve_decision. Defined.

(** What a truth test, [bool(x)] or the test of an [if] or a [while], gives
    on an object: true, false, or the exception its [__bool__] or [__len__]
    raises.  An object whose class defines neither is true. *)
Inductive Truth : Type :=
| Truthy
| Falsy
| TruthRaises (e : Exn).

(** The values a context may hold.  [VOther] is a value of any type not
    listed (a float, a tuple, a dict, an instance of a class): its identity
    and what a truth test gives on it. *)
#[warnings="-register-all"] Inductive PyVal : Type :=
| VNone
| VBool (b : bool)
| VInt (z : Z)
| VStr (s : string)
| VList (items : list PyVal)
| VOther (id : positive) (truth : Truth).

(** Python's truth value testing of a value. *)
Definition truthy (v : PyVal) : Truth :=
  match v with
  | VNone => Falsy
  | VBool b => if b then Truthy else Falsy
  | VInt z => if Z.eqb z 0 then Falsy else Truthy
  | VStr s => if String.eqb s "" then Falsy else Truthy
  | VList items => match items with [] => Falsy | _ :: _ => Truthy end
  | VOther _ t => t
  end.

(** ** The [Step] interface *)

(** What one call [step.execute(context)] does to the store [W] it works on:
    it returns an outcome key, or it raises; in both cases the store is left
    as the call's code mutated it. *)
Inductive Exec (W : Type) : Type :=
| Returns (result : string) (w : W)
| Raises (e : Exn) (w : W).
Arguments Returns {W} result w.
Arguments Raises {W} e w.


(** The store a call leaves behind. *)
Definition store_of {W : Type} (r : Exec W) : W :=
  match r with
  | Returns _ w => w
  | Raises _ w => w
  end.

(** ** The [FlowEngine] class *)

(** [flow_map : Dict[Step, Dict[str, Optional[Step]]]] and
    [start_step : Optional[Step]]; [None] as a target is the terminal
    sentinel. *)
Record FlowEngine : Type := mkFlowEngine {
  flow_map : gmap StepRef (gmap string (option StepRef));
  start_step : option StepRef
}.

(** [FlowEngine.__init__] *)
Definition FlowEngine_init : FlowEngine :=
  {| flow_map := ∅; start_step := None |}.

(** How a method call ends: it returns ([None]) or it raises. *)
Inductive Completion : Type :=
| Normal
| Raised (e : Exn).

(** [FlowEngine.set_start] *)
Definition set_start (step : StepRef) (self : FlowEngine)
  : Completion * FlowEngine :=
  (Normal, {| flow_map := flow_map self; start_step := Some step |}).

(** [FlowEngine.add_transition]: create the inner dict of [from_step] when
    it is not a key yet, then store [to_step] under [result_key] in it. *)
Definition add_transition (from_step : StepRef) (result_key : string)
    (to_step : option StepRef) (self : FlowEngine)
  : Completion * FlowEngine :=
  let fm :=
    match flow_map self !! from_step with
    | None => <[from_step := ∅]> (flow_map self)
    | Some _ => flow_map self
    end in
  match fm !! from_step with
  | Some inner =>
      (Normal,
       {| flow_map := <[from_step := <[result_key := to_step]> inner]> fm;
          start_step := start_step self |})
  | None => (Raised (PyExc "KeyError" ""), self)
  end.

(** [self.flow_map.get(current_step, {}).get(result)] *)
Definition lookup_next (self : FlowEngine) (current_step : StepRef)
    (result : string) : option StepRef :=
  match default ∅ (flow_map self !! current_step) !! result with
  | Some next_step => next_step
  | None => None
  end.

(** ** The [run] loop *)

(** Control state of a run: the loop is about to execute [current_step],
    the loop has been left ([run] returns), or a step's exception is
    travelling up through [run]. *)
Inductive Status : Type :=
| Running (current_step : StepRef)
| Terminated
| Failed (e : Exn).

#[global] Instance Status_eq_dec : EqDecision Status.
Proof. solve_decision. Defined.

Section Run.
(** [W] is the store the steps act on: the context dict passed to [run],
    with whatever else their code touches.  The engine is parametric in
    it. *)
Context {W : Type}.

(** The truth value of the object a reference points to: [Truthy] for an
    instance of a class that, like the three of the source, defines neither
    [__bool__] nor [__len__]. *)
Variable truth : StepRef -> Truth.

(** Method dispatch: the [execute] of the object a reference points to. *)
Variable execute : StepRef -> W -> Exec W.

(** The loop test [while current_step:] on an [Optional[Step]]: a truth
    test.  [None] is false; a step is what its truth test gives, and an
    exception raised by that test leaves [run]. *)
Definition loop_test (current_step : option StepRef) : Status :=
  match current_step with
  | Some s =>
      match truth s with
      | Truthy => Running s
      | Falsy => Terminated
      | TruthRaises e => Failed e
      end
  | None => Terminated
  end.

(** The state of one [run] call.  [executed] is the log of the [execute]
    calls made so far, oldest first; the source keeps no such log. *)
Record RunState : Type := mkRunState {
  self : FlowEngine;
  status : Status;
  context : W;
  executed : list StepRef
}.

(** [current_step = self.start_step] and the first loop test. *)
Definition run_enter (eng : FlowEngine) (ctx : W) : RunState :=
  {| self := eng; status := loop_test (start_step eng);
     context := ctx; executed := [] |}.

(** One iteration of the [while] body, followed by the loop test. *)
Definition tick (st : RunState) : RunState :=
  match status st with
  | Running current_step =>
      match execute current_step (context st) with
      | Returns result ctx' =>
          let next_step := lookup_next (self st) current_step result in
          {| self := self st; status := loop_test next_step;
             context := ctx'; executed := executed st ++ [current_step] |}
      | Raises e ctx' =>
          {| self := self st; status := Failed e;
             context := ctx'; executed := executed st ++ [current_step] |}
      end
  | Terminated | Failed _ => st
  end.

(** The state after at most [n] iterations. *)
Fixpoint ticks (n : nat) (st : RunState) : RunState :=
  match n with
  | O => st
  | S n' =>
      match status st with
      | Running _ => ticks n' (tick st)
      | Terminated | Failed _ => st
      end
  end.

(** [FlowEngine.run], cut off after [fuel] iterations: a final status
    [Running _] means that the loop has not been left yet. *)
Definition run (fuel : nat) (eng : FlowEngine) (ctx : W) : RunState :=
  ticks fuel (run_enter eng ctx).

(** The store after the [execute] calls of a log, made in order on [ctx],
    each one working on what the one before left. *)
Fixpoint replay (log : list StepRef) (ctx : W) : W :=
  match log with
  | [] => ctx
  | s :: log' => replay log' (store_of (execute s ctx))
  end.

End Run.

Arguments mkRunState {W} self status context executed.
Arguments self {W} r.
Arguments status {W} r.
Arguments context {W} r.
Arguments executed {W} r.

(** What a caller or a test harness can see of a run: everything but the
    engine object. *)
Definition observe {W : Type} (st : RunState (W := W))
  : Status * W * list StepRef :=
  (status st, context st, executed st).

(** The loop has been left, by a return or by an exception. *)
Definition halted {W : Type} (st : RunState (W := W)) : Prop :=
  match status st with
  | Running _ => False
  | Terminated | Failed _ => True
  end.

(** The same run state on another engine object. *)
Definition with_self {W : Type} (eng : FlowEngine) (st : RunState (W := W))
  : RunState :=
  {| self := eng; status := status st; context := context st;
     executed := executed st |}.

(** ** Sequences of configuration calls *)

(** A method of the engine object: it acts on [self] and returns or raises. *)
Definition Method : Type := FlowEngine -> Completion * FlowEngine.

(** Two statements in a row: the second runs when the first has returned. *)
Definition seq_call (m1 m2 : Method) : Method :=
  fun self =>
    match m1 self with
    | (Normal, self') => m2 self'
    | (Raised e, self') => (Raised e, self')
    end.

Definition skip : Method := fun self => (Normal, self).

(** The calls a client makes to wire an engine. *)
Inductive Call : Type :=
| SetStart (step : StepRef)
| AddTransition (from_step : StepRef) (result_key : string)
    (to_step : option StepRef).

Definition call (c : Call) : Method :=
  match c with
  | SetStart step => set_start step
  | AddTransition from_step result_key to_step =>
      add_transition from_step result_key to_step
  end.

(** The calls of a list, first to last. *)
Fixpoint calls (cs : list Call) : Method :=
  match cs with
  | [] => skip
  | c :: cs' => seq_call (call c) (calls cs')
  end.

(** [c] registers a target for the pair [(s, k)]. *)
Definition registers (s : StepRef) (k : string) (c : Call) : bool :=
  match c with
  | SetStart _ => false
  | AddTransition from_step result_key _ =>
      bool_decide (from_step = s) && bool_decide (result_key = k)
  end.


(** ** The concrete steps and the client configuration *)

Module Client.

(** What the demo steps act on: the context dict and standard output. *)
Record Store : Type := mkStore {
  dict : gmap string PyVal;
  stdout : list string
}.

Definition print (line : string) (w : Store) : Store :=
  {| dict := dict w; stdout := stdout w ++ [line] |}.

(** [context.get(key, dflt)] *)
Definition dict_get (w : Store) (key : string) (dflt : PyVal) : PyVal :=
  default dflt (dict w !! key).

(** [StepA.execute]: the [if] truth-tests what [context.get] returned. *)
Definition StepA_execute (w : Store) : Exec Store :=
  let w := print "StepA: validating data" w in
  match truthy (dict_get w "data_valid" (VBool false)) with
  | Truthy => Returns "success" w
  | Falsy => Returns "fail" w
  | TruthRaises e => Raises e w
  end.

(** [StepB.execute] *)
Definition StepB_execute (w : Store) : Exec Store :=
  let w := print "StepB: processing data" w in
  Returns "done" w.

(** [StepC.execute] *)
Definition StepC_execute (w : Store) : Exec Store :=
  let w := print "StepC: handling failure" w in
  Returns "done" w.

(** The three instances the module creates. *)
Definition step_a : StepRef := 1%positive.
Definition step_b : StepRef := 2%positive.
Definition step_c : StepRef := 3%positive.

(** [StepA], [StepB] and [StepC] define neither [__bool__] nor [__len__]:
    their instances are true. *)
Definition truth (s : StepRef) : Truth := Truthy.

(** The class of each live object decides which [execute] runs; the
    module creates no other step, a stray reference behaves as an object
    without an [execute] attribute. *)
Definition execute (s : StepRef) (w : Store) : Exec Store :=
  if decide (s = step_a) then StepA_execute w
  else if decide (s = step_b) then StepB_execute w
  else if decide (s = step_c) then StepC_execute w
  else Raises (PyExc "AttributeError" "execute") w.

(** [context = {"data_valid": True}] *)
Definition initial_context : Store :=
  {| dict := {[ "data_valid" := VBool true ]}; stdout := [] |}.

(** The wiring of the module, lines 76 to 81. *)
Definition wiring : list Call :=
  [ SetStart step_a;
    AddTransition step_a "success" (Some step_b);
    AddTransition step_a "fail" (Some step_c);
    AddTransition step_b "done" None;
    AddTransition step_c "done" None ].

Definition engine : FlowEngine := snd (calls wiring FlowEngine_init).

End Client.

(** ** Test workflows *)

Module Scenarios.

(** The context of these workflows is a plain dict. *)
Abbreviation Ctx := (gmap string PyVal).

(** A step that branches on [context.get("go", False)]. *)
Definition Branch_execute (ctx : Ctx) : Exec Ctx :=
  match truthy (default (VBool false) (ctx !! "go")) with
  | Truthy => Returns "yes" ctx
  | Falsy => Returns "no" ctx
  | TruthRaises e => Raises e ctx
  end.

(** A step that leaves its mark, [context[key] = True], and is done. *)
Definition Mark_execute (key : string) (ctx : Ctx) : Exec Ctx :=
  Returns "done" (<[key := VBool true]> ctx).

(** A step that leaves its mark and then raises. *)
Definition Boom_execute (ctx : Ctx) : Exec Ctx :=
  Raises (PyExc "RuntimeError" "boom") (<[ "boom" := VBool true ]> ctx).

(** A step that always asks to be run again. *)
Definition Loop_execute (ctx : Ctx) : Exec Ctx :=
  Returns "loop" ctx.

(** A step of a class with [__len__] returning 0: it leaves its mark and
    asks to be run again, and its instances are false. *)
Definition Empty_execute (ctx : Ctx) : Exec Ctx :=
  Returns "loop" (<[ "empty" := VBool true ]> ctx).

Definition A : StepRef := 1%positive.
Definition B : StepRef := 2%positive.
Definition C : StepRef := 3%positive.
Definition Boom : StepRef := 4%positive.
Definition Loop : StepRef := 5%positive.
Definition Empty : StepRef := 6%positive.

Definition execute (s : StepRef) (ctx : Ctx) : Exec Ctx :=
  if decide (s = A) then Branch_execute ctx
  else if decide (s = B) then Mark_execute "b" ctx
  else if decide (s = C) then Mark_execute "c" ctx
  else if decide (s = Boom) then Boom_execute ctx
  else if decide (s = Loop) then Loop_execute ctx
  else if decide (s = Empty) then Empty_execute ctx
  else Raises (PyExc "AttributeError" "execute") ctx.

(** Every instance is true but [Empty]. *)
Definition truth (s : StepRef) : Truth :=
  if decide (s = Empty) then Falsy else Truthy.

(** [B], then the raising step, then [C]. *)
Definition failing : FlowEngine :=
  snd (calls [ SetStart B;
               AddTransition B "done" (Some Boom);
               AddTransition Boom "done" (Some C);
               AddTransition C "done" None ] FlowEngine_init).




End Scenarios.


(** ** Views of the table and of a run *)

(** What the table stores for the pair [(s, k)]: nothing, or a target that
    is a step or the terminal sentinel ([k in self.flow_map[s]], then
    [self.flow_map[s][k]]). *)
Definition entry (self : FlowEngine) (s : StepRef) (k : string)
  : option (option StepRef) :=
  match flow_map self !! s with
  | Some inner => inner !! k
  | None => None
  end.

(** The target given by the last call of a list that registers [(s, k)]. *)
Fixpoint last_registered (s : StepRef) (k : string) (cs : list Call)
  : option (option StepRef) :=
  match cs with
  | [] => None
  | c :: cs' =>
      match last_registered s k cs' with
      | Some t => Some t
      | None =>
          match c with
          | AddTransition _ _ t => if registers s k c then Some t else None
          | SetStart _ => None
          end
      end
  end.

(** The step given by the last [set_start] call of a list. *)
Fixpoint last_start (cs : list Call) : option StepRef :=
  match cs with
  | [] => None
  | c :: cs' =>
      match last_start cs' with
      | Some s => Some s
      | None =>
          match c with
          | SetStart s => Some s
          | AddTransition _ _ _ => None
          end
      end
  end.

(** A log follows the table: each step is followed by one of its targets. *)
Fixpoint linked (self : FlowEngine) (log : list StepRef) : Prop :=
  match log with
  | [] => True
  | s :: rest =>
      match rest with
      | [] => True
      | t :: _ => (exists k, lookup_next self s k = Some t) /\ linked self rest
      end
  end.

(** The steps a run has entered: those executed, and the one the loop is
    about to execute. *)
Definition entered {W : Type} (st : RunState (W := W)) : list StepRef :=
  executed st ++
  match status st with
  | Running s => [s]
  | Terminated | Failed _ => []
  end.

(** A run state moved behind a log [pre] and onto another engine object. *)
Definition resumed {W : Type} (eng : FlowEngine) (pre : list StepRef)
    (st : RunState (W := W)) : RunState :=
  {| self := eng; status := status st; context := context st;
     executed := pre ++ executed st |}.

(** The ranks of the client's steps: [step_a] comes before the other two. *)
Definition client_rank (s : StepRef) : nat :=
  if decide (s = Client.step_a) then 1 else 0.

(** ** The transition table *)

Lemma add_transition_flow_map from_step result_key to_step self :
  add_transition from_step result_key to_step self =
  (Normal,
   {| flow_map :=
        <[from_step := <[result_key := to_step]>
                         (default ∅ (flow_map self !! from_step))]>
          (flow_map self);
      start_step := start_step self |}).
Proof.
  unfold add_transition.
  destruct (flow_map self !! from_step) as [inner|] eqn:Hin; simpl.
  - by rewrite Hin.
  - by rewrite lookup_insert_eq, insert_insert_eq.
Qed.

Lemma lookup_next_add_transition from_step result_key to_step self s k :
  lookup_next (snd (add_transition from_step result_key to_step self)) s k =
  if decide (from_step = s /\ result_key = k) then to_step
  else lookup_next self s k.
Proof.
  rewrite add_transition_flow_map. unfold lookup_next. simpl.
  destruct (decide (from_step = s)) as [->|Hs].
  - rewrite lookup_insert_eq. simpl.
    destruct (decide (result_key = k)) as [->|Hk].
    + rewrite lookup_insert_eq. by rewrite decide_True.
    + rewrite lookup_insert_ne by done. rewrite decide_False; [done|tauto].
  - rewrite lookup_insert_ne by done. rewrite decide_False; [done|tauto].
Qed.

Lemma start_step_add_transition from_step result_key to_step self :
  start_step (snd (add_transition from_step result_key to_step self)) =
  start_step self.
Proof. by rewrite add_transition_flow_map. Qed.


Lemma lookup_next_init s k : lookup_next FlowEngine_init s k = None.
Proof. reflexivity. Qed.

Lemma lookup_next_set_start step self s k :
  lookup_next (snd (set_start step self)) s k = lookup_next self s k.
Proof. reflexivity. Qed.

Lemma call_returns c self : fst (call c self) = Normal.
Proof.
  destruct c as [step|from_step result_key to_step]; simpl; [done|].
  by rewrite add_transition_flow_map.
Qed.

Lemma calls_cons c cs self :
  calls (c :: cs) self = calls cs (snd (call c self)).
Proof.
  simpl. unfold seq_call. pose proof (call_returns c self) as Hc.
  destruct (call c self) as [r self']. simpl in *. by subst r.
Qed.

Lemma calls_return cs self : fst (calls cs self) = Normal.
Proof.
  revert self. induction cs as [|c cs IH]; intros self; [done|].
  rewrite calls_cons. apply IH.
Qed.

(** Calls that do not register [(s, k)] leave its lookup alone. *)
Lemma lookup_next_calls_other cs self s k :
  forallb (fun c => negb (registers s k c)) cs = true ->
  lookup_next (snd (calls cs self)) s k = lookup_next self s k.
Proof.
  revert self. induction cs as [|c cs IH]; intros self Hcs; [done|].
  simpl in Hcs. apply andb_prop in Hcs as [Hc Hcs].
  rewrite calls_cons, IH by done.
  destruct c as [step|from_step result_key to_step]; simpl; [done|].
  rewrite lookup_next_add_transition.
  simpl in Hc. apply negb_true_iff, andb_false_iff in Hc.
  rewrite decide_False; [done|].
  intros [-> ->].
  destruct Hc as [Hc|Hc]; by rewrite bool_decide_eq_false in Hc.
Qed.

(** An explicit terminal wiring of a pair whose lookup is terminal anyway
    changes no lookup. *)
Lemma lookup_next_wire_terminal self s k s' k' :
  lookup_next self s k = None ->
  lookup_next (snd (add_transition s k None self)) s' k' =
  lookup_next self s' k'.
Proof.
  intros Hnone. rewrite lookup_next_add_transition.
  case_decide as Heq; [|done]. by destruct Heq as [<- <-].
Qed.

(** ** The run loop *)

Section RunFacts.
Context {W : Type}.
Variable truth : StepRef -> Truth.
Variable execute : StepRef -> W -> Exec W.

Implicit Types (st : RunState (W := W)) (eng : FlowEngine) (ctx : W).

(** The loop is entered on a step whose truth test is true, and on nothing
    else. *)
Lemma loop_test_truthy s :
  truth s = Truthy -> loop_test truth (Some s) = Running s.
Proof. intros Hs. simpl. by rewrite Hs. Qed.

Lemma loop_test_running next s :
  loop_test truth next = Running s -> next = Some s /\ truth s = Truthy.
Proof.
  destruct next as [t|]; simpl; [|done].
  destruct (truth t) eqn:Ht; [|done..]. by intros [= <-].
Qed.

Lemma tick_halted st : halted st -> tick truth execute st = st.
Proof. unfold halted, tick. by destruct (status st). Qed.

Lemma ticks_halted n st : halted st -> ticks truth execute n st = st.
Proof. unfold halted. destruct n; simpl; [done|]. by destruct (status st). Qed.

Lemma ticks_S n st :
  ticks truth execute (S n) st = ticks truth execute n (tick truth execute st).
Proof.
  simpl. destruct (status st) eqn:Hst; [done| |];
    (rewrite tick_halted, ticks_halted; [done|..]; unfold halted;
     by rewrite Hst).
Qed.

Lemma ticks_add n m st :
  ticks truth execute (n + m) st =
  ticks truth execute m (ticks truth execute n st).
Proof.
  revert st. induction n as [|n IH]; intros st; [done|].
  rewrite Nat.add_succ_l, !ticks_S. apply IH.
Qed.

Lemma ticks_S_r n st :
  ticks truth execute (S n) st = tick truth execute (ticks truth execute n st).
Proof.
  replace (S n) with (n + 1) by lia. rewrite ticks_add.
  by rewrite ticks_S.
Qed.

(** Once the loop has been left, more fuel changes nothing. *)
Lemma ticks_halted_le n m st :
  halted (ticks truth execute n st) -> n <= m ->
  ticks truth execute m st = ticks truth execute n st.
Proof.
  intros Hh Hle. replace m with (n + (m - n)) by lia.
  rewrite ticks_add. by apply ticks_halted.
Qed.

Lemma tick_running st s :
  status st = Running s ->
  tick truth execute st =
  match execute s (context st) with
  | Returns result ctx' =>
      {| self := self st;
         status := loop_test truth (lookup_next (self st) s result);
         context := ctx'; executed := executed st ++ [s] |}
  | Raises e ctx' =>
      {| self := self st; status := Failed e;
         context := ctx'; executed := executed st ++ [s] |}
  end.
Proof. intros Hst. unfold tick. by rewrite Hst. Qed.

(** The loop only reads [self]. *)
Lemma self_tick st : self (tick truth execute st) = self st.
Proof.
  unfold tick. destruct (status st); [|done..].
  by destruct (execute _ _).
Qed.

Lemma self_ticks n st : self (ticks truth execute n st) = self st.
Proof.
  induction n as [|n IH]; [done|]. by rewrite ticks_S_r, self_tick.
Qed.

(** The context is what the executed steps made of it, nothing else. *)
Lemma replay_snoc log s ctx :
  replay execute (log ++ [s]) ctx =
  store_of (execute s (replay execute log ctx)).
Proof. revert ctx. induction log as [|s' log IH]; intros ctx; simpl; auto. Qed.

Lemma context_tick st ctx0 :
  context st = replay execute (executed st) ctx0 ->
  context (tick truth execute st) =
  replay execute (executed (tick truth execute st)) ctx0.
Proof.
  intros Hctx. unfold tick. destruct (status st) as [s| |]; [|done..].
  destruct (execute s (context st)) as [k c'|e c'] eqn:Hex; simpl;
    by rewrite replay_snoc, <- Hctx, Hex.
Qed.

Lemma context_run fuel eng ctx :
  context (run truth execute fuel eng ctx) =
  replay execute (executed (run truth execute fuel eng ctx)) ctx.
Proof.
  unfold run. induction fuel as [|n IH]; [done|].
  rewrite ticks_S_r. by apply context_tick.
Qed.

(** Two engines with the same lookups drive the same run. *)
Lemma tick_lookup_ext eng1 eng2 st :
  (forall s k, lookup_next eng1 s k = lookup_next eng2 s k) ->
  tick truth execute (with_self eng2 st) =
  with_self eng2 (tick truth execute (with_self eng1 st)).
Proof.
  intros Hext. unfold tick, with_self. simpl.
  destruct (status st) as [s| |]; [|done..].
  destruct (execute s (context st)) as [k c'|e c']; simpl; [|done].
  by rewrite Hext.
Qed.

Lemma with_self_self st : with_self (self st) st = st.
Proof. by destruct st. Qed.

Lemma ticks_lookup_ext eng1 eng2 n st :
  (forall s k, lookup_next eng1 s k = lookup_next eng2 s k) ->
  ticks truth execute n (with_self eng2 st) =
  with_self eng2 (ticks truth execute n (with_self eng1 st)).
Proof.
  intros Hext. induction n as [|n IH]; [done|].
  rewrite !ticks_S_r, IH.
  rewrite <- (with_self_self (ticks truth execute n (with_self eng1 st))) at 2.
  rewrite self_ticks. simpl. by apply tick_lookup_ext.
Qed.

End RunFacts.

(** The run the module itself makes, [engine.run(context)] on line 83:
    [StepA] validates, [StepB] processes, and the run returns. *)
Example client_run :
  observe (run Client.truth Client.execute 2 Client.engine
             Client.initial_context) =
  (Terminated,
   {| Client.dict := {[ "data_valid" := VBool true ]};
      Client.stdout := ["StepA: validating data"; "StepB: processing data"] |},
   [Client.step_a; Client.step_b]).
Proof. reflexivity. Qed.

(** The same wiring on a context without "data_valid" takes the failure
    branch. *)
Example client_run_invalid :
  observe (run Client.truth Client.execute 2 Client.engine
             {| Client.dict := ∅; Client.stdout := [] |}) =
  (Terminated,
   {| Client.dict := ∅;
      Client.stdout := ["StepA: validating data"; "StepC: handling failure"] |},
   [Client.step_a; Client.step_c]).
Proof. reflexivity. Qed.

(** ** Properties of the engine *)

(** C1, as the specification states it, fails: on a freshly built engine,
    whose start step was never set, [run] raises nothing, whatever the
    number of iterations allowed. *)
Lemma run_without_start_raises_nothing :
  ~ (exists fuel e,
       status (run Client.truth Client.execute fuel FlowEngine_init
                 Client.initial_context)
       = Failed e).
Proof.
  intros (fuel & e & Hrun). unfold run in Hrun.
  rewrite ticks_halted in Hrun by exact I. discriminate Hrun.
Qed.

(** C1, amended: when [run(context)] is invoked on an engine whose start
    step is [None], the loop body is never entered: [run] returns normally
    at once, no step's [execute] is invoked, no exception is raised and the
    context is left as it was. *)
Theorem run_without_start_returns {W : Type}
    (truth : StepRef -> Truth)
    (execute : StepRef -> W -> Exec W) (eng : FlowEngine) (ctx : W)
    (fuel : nat) :
  start_step eng = None ->
  run truth execute fuel eng ctx =
  {| self := eng; status := Terminated; context := ctx; executed := [] |}.
Proof.
  intros Hstart. unfold run, run_enter. rewrite Hstart. simpl.
  by apply ticks_halted.
Qed.

Lemma run_without_start_returns_witness :
  start_step FlowEngine_init = None /\
  run Client.truth Client.execute 3 FlowEngine_init Client.initial_context =
  {| self := FlowEngine_init; status := Terminated;
     context := Client.initial_context; executed := [] |}.
Proof.
  split; [reflexivity|].
  apply (run_without_start_returns Client.truth Client.execute FlowEngine_init
           Client.initial_context 3).
  reflexivity.
Defined.

(** C2: in an engine wired by any sequence of calls none of which registers
    the pair [(s, k)], the lookup of [(s, k)] yields the terminal sentinel;
    an iteration that executes [s] and obtains [k] leaves the loop with a
    normal return; and every run of that engine is, step for step, the run
    of the engine in which [(s, k)] has been wired to terminal
    explicitly. *)
Theorem unregistered_pair_is_terminal (cs : list Call) (s : StepRef)
    (k : string) :
  forallb (fun c => negb (registers s k c)) cs = true ->
  let eng := snd (calls cs FlowEngine_init) in
  let eng' := snd (add_transition s k None eng) in
  lookup_next eng s k = None /\
  (forall (W : Type) (truth : StepRef -> Truth)
    (execute : StepRef -> W -> Exec W) ctx ctx' log,
      execute s ctx = Returns k ctx' ->
      tick truth execute {| self := eng; status := Running s; context := ctx;
                      executed := log |} =
      {| self := eng; status := Terminated; context := ctx';
         executed := log ++ [s] |}) /\
  (forall (W : Type) (truth : StepRef -> Truth)
    (execute : StepRef -> W -> Exec W) fuel ctx,
      start_step eng' = start_step eng /\
      observe (run truth execute fuel eng ctx) =
      observe (run truth execute fuel eng' ctx)).
Proof.
  intros Hcs eng eng'.
  assert (lookup_next eng s k = None) as Hnone.
  { unfold eng. by rewrite lookup_next_calls_other. }
  split; [done|]. split.
  - intros W truth execute ctx ctx' log Hex.
    unfold tick. simpl. by rewrite Hex, Hnone.
  - intros W truth execute fuel ctx.
    assert (start_step eng' = start_step eng) as Hstart
      by apply start_step_add_transition.
    split; [done|]. unfold run.
    assert (run_enter truth eng' ctx =
            with_self eng' (run_enter truth eng ctx)) as ->
      by (unfold run_enter, with_self; simpl; by rewrite Hstart).
    rewrite (ticks_lookup_ext truth execute eng eng').
    + reflexivity.
    + intros s' k'. symmetry. by apply lookup_next_wire_terminal.
Qed.

Lemma unregistered_pair_is_terminal_witness :
  forallb (fun c => negb (registers Client.step_a "retry" c)) Client.wiring
  = true /\
  lookup_next Client.engine Client.step_a "retry" = None.
Proof.
  split; [reflexivity|].
  apply (unregistered_pair_is_terminal Client.wiring Client.step_a "retry").
  reflexivity.
Defined.

(** C4: [add_transition(s, k, t1)] followed by [add_transition(s, k, t2)]
    raises nothing; the engine it leaves is the one a single registration of
    [t2] would have left, so the lookup of [(s, k)] yields [t2], and keeps
    yielding it after any later calls that do not register [(s, k)] again;
    the lookup of every other pair is what it was before the second call,
    and the start step is untouched. *)
Theorem add_transition_last_wins (eng : FlowEngine) (s : StepRef)
    (k : string) (t1 t2 : option StepRef) :
  let r1 := add_transition s k t1 eng in
  let r2 := add_transition s k t2 (snd r1) in
  fst r1 = Normal /\ fst r2 = Normal /\
  snd r2 = snd (add_transition s k t2 eng) /\
  lookup_next (snd r2) s k = t2 /\
  (forall cs,
      forallb (fun c => negb (registers s k c)) cs = true ->
      lookup_next (snd (calls cs (snd r2))) s k = t2) /\
  (forall s' k',
      (s', k') <> (s, k) ->
      lookup_next (snd r2) s' k' = lookup_next (snd r1) s' k') /\
  start_step (snd r2) = start_step (snd r1).
Proof.
  intros r1 r2.
  assert (lookup_next (snd r2) s k = t2) as Hlast.
  { unfold r2. rewrite lookup_next_add_transition. by rewrite decide_True. }
  repeat split.
  - unfold r1. by rewrite add_transition_flow_map.
  - unfold r2. by rewrite add_transition_flow_map.
  - unfold r2, r1. rewrite !add_transition_flow_map. simpl.
    rewrite lookup_insert_eq. simpl.
    by rewrite !insert_insert_eq.
  - exact Hlast.
  - intros cs Hcs. by rewrite lookup_next_calls_other.
  - intros s' k' Hne. unfold r2. rewrite lookup_next_add_transition.
    rewrite decide_False; [done|]. intros [-> ->]. by apply Hne.
  - unfold r2. apply start_step_add_transition.
Qed.

Lemma add_transition_last_wins_witness :
  let e1 := snd (add_transition Client.step_a "success" (Some Client.step_c)
                   Client.engine) in
  let e2 := snd (add_transition Client.step_a "success" None e1) in
  lookup_next e2 Client.step_a "success" = None /\
  lookup_next e2 Client.step_a "fail" = lookup_next e1 Client.step_a "fail".
Proof.
  pose proof (add_transition_last_wins Client.engine Client.step_a "success"
                (Some Client.step_c) None)
    as (_ & _ & _ & Hlast & _ & Hoth & _).
  split; [exact Hlast|].
  apply Hoth. discriminate.
Defined.




(** C9: [run(context)] leaves the engine's configuration alone: whatever
    the steps do and however long the run lasts, [flow_map] and
    [start_step] are afterwards what they were before the call, so a second
    [run] on the engine is the run of the engine as configured. *)
Theorem run_preserves_configuration {W : Type}
    (truth : StepRef -> Truth)
    (execute : StepRef -> W -> Exec W) (fuel : nat) (eng : FlowEngine)
    (ctx : W) :
  flow_map (self (run truth execute fuel eng ctx)) = flow_map eng /\
  start_step (self (run truth execute fuel eng ctx)) = start_step eng /\
  (forall fuel' ctx',
      run truth execute fuel' (self (run truth execute fuel eng ctx)) ctx' =
      run truth execute fuel' eng ctx').
Proof.
  assert (self (run truth execute fuel eng ctx) = eng) as ->
    by (unfold run; by rewrite self_ticks).
  done.
Qed.

(** Python's truth test on the values of each type. *)
Lemma truthy_cases (v : PyVal) :
  truthy v =
  match v with
  | VNone | VBool false | VInt Z0 | VStr EmptyString | VList [] => Falsy
  | VBool true | VInt (Zpos _) | VInt (Zneg _) | VStr (String _ _)
  | VList (_ :: _) => Truthy
  | VOther _ t => t
  end.
Proof.
  destruct v as [|[]|[]|[]|[]|]; reflexivity.
Qed.

(** C10, as the specification states it, fails: a value that is not truthy
    need not yield "fail".  When the truth test of the value stored under
    "data_valid" raises (as the test of an array of several elements does),
    [StepA.execute] raises that exception and returns no key. *)
Lemma StepA_execute_truth_test_raises :
  Client.StepA_execute
    {| Client.dict :=
         {[ "data_valid" :=
              VOther 1 (TruthRaises (PyExc "ValueError" "ambiguous")) ]};
       Client.stdout := [] |} =
  Raises (PyExc "ValueError" "ambiguous")
    {| Client.dict :=
         {[ "data_valid" :=
              VOther 1 (TruthRaises (PyExc "ValueError" "ambiguous")) ]};
       Client.stdout := ["StepA: validating data"] |}.
Proof. reflexivity. Qed.

(** C10, amended: for every context, [StepA.execute(context)] returns
    "success" when the context maps "data_valid" to a value whose truth
    test is true ([True], a number other than 0, a string or a list that is
    not empty, an object that says so), and "fail" when the key is missing
    (not an error) or the value's truth test is false ([None], [False], 0,
    the empty string, the empty list, an object that says so); when the
    value's truth test itself raises, [execute] raises that exception.  In
    each case it has printed its line and left the context dict as it
    was. *)
Theorem StepA_execute_outcome (w : Client.Store) :
  let w' :=
    {| Client.dict := Client.dict w;
       Client.stdout := Client.stdout w ++ ["StepA: validating data"] |} in
  Client.StepA_execute w =
  match Client.dict w !! "data_valid" with
  | None | Some VNone | Some (VBool false) | Some (VInt Z0)
  | Some (VStr EmptyString) | Some (VList [])
  | Some (VOther _ Falsy) => Returns "fail" w'
  | Some (VBool true) | Some (VInt (Zpos _)) | Some (VInt (Zneg _))
  | Some (VStr (String _ _)) | Some (VList (_ :: _))
  | Some (VOther _ Truthy) => Returns "success" w'
  | Some (VOther _ (TruthRaises e)) => Raises e w'
  end.
Proof.
  unfold Client.StepA_execute, Client.dict_get, Client.print. simpl.
  destruct (Client.dict w !! "data_valid") as [v|]; simpl; [|done].
  rewrite truthy_cases.
  destruct v as [|[]|[]|[]|[]|? []]; reflexivity.
Qed.

Lemma StepA_execute_outcome_witness :
  Client.StepA_execute
    {| Client.dict := {[ "data_valid" := VInt 0 ]}; Client.stdout := [] |} =
  Returns "fail"
    {| Client.dict := {[ "data_valid" := VInt 0 ]};
       Client.stdout := ["StepA: validating data"] |} /\
  Client.StepA_execute
    {| Client.dict := {[ "data_valid" := VStr "no" ]};
       Client.stdout := [] |} =
  Returns "success"
    {| Client.dict := {[ "data_valid" := VStr "no" ]};
       Client.stdout := ["StepA: validating data"] |} /\
  Client.StepA_execute
    {| Client.dict := {[ "other" := VBool true ]}; Client.stdout := [] |} =
  Returns "fail"
    {| Client.dict := {[ "other" := VBool true ]};
       Client.stdout := ["StepA: validating data"] |}.
Proof.
  split; [|split].
  - exact (StepA_execute_outcome
             {| Client.dict := {[ "data_valid" := VInt 0 ]};
                Client.stdout := [] |}).
  - exact (StepA_execute_outcome
             {| Client.dict := {[ "data_valid" := VStr "no" ]};
                Client.stdout := [] |}).
  - exact (StepA_execute_outcome
             {| Client.dict := {[ "other" := VBool true ]};
                Client.stdout := [] |}).
Defined.



(** A run that enters the loop at a true step [A], obtains a key that leads
    to a true step [B], and finds every key of [B] leading to terminal,
    executes [A] and [B] and halts. *)
Lemma run_two_steps {W : Type} (truth : StepRef -> Truth)
    (execute : StepRef -> W -> Exec W)
    (eng : FlowEngine) (A B : StepRef) (k : string) (ctx ctx1 : W)
    (fuel : nat) :
  truth A = Truthy ->
  truth B = Truthy ->
  start_step eng = Some A ->
  execute A ctx = Returns k ctx1 ->
  lookup_next eng A k = Some B ->
  (forall k', lookup_next eng B k' = None) ->
  2 <= fuel ->
  run truth execute fuel eng ctx =
  {| self := eng;
     status := match execute B ctx1 with
               | Returns _ _ => Terminated
               | Raises e _ => Failed e
               end;
     context := store_of (execute B ctx1);
     executed := [A; B] |}.
Proof.
  intros HtA HtB Hstart HA HAB HB Hfuel.
  assert (run truth execute 2 eng ctx =
          {| self := eng;
             status := match execute B ctx1 with
                       | Returns _ _ => Terminated
                       | Raises e _ => Failed e
                       end;
             context := store_of (execute B ctx1);
             executed := [A; B] |}) as Htwo.
  { unfold run. rewrite !ticks_S. simpl.
    rewrite (tick_running truth execute (run_enter truth eng ctx) A)
      by (unfold run_enter; simpl; rewrite Hstart;
          by apply loop_test_truthy).
    simpl. rewrite HA, HAB, (loop_test_truthy truth B HtB).
    rewrite (tick_running truth execute _ B) by done. simpl.
    destruct (execute B ctx1) as [k' c2|e c2]; simpl; [|done].
    by rewrite HB. }
  unfold run in *.
  rewrite (ticks_halted_le truth execute 2 fuel); [done| |done].
  rewrite Htwo. unfold halted. simpl. by destruct (execute B ctx1).
Qed.







(** C3: when, after [n] iterations, the current step [b] raises [e] on the
    context the run has reached, [run(context)] ends with that same
    exception [e]; the log of executed steps ends with [b] and grows no
    more, however long the run is allowed to last; and the context is the
    one the failing step left, that is, the initial context with the
    effects of every executed step, the failing one included, in order. *)
Theorem step_exception_propagates {W : Type}
    (truth : StepRef -> Truth)
    (execute : StepRef -> W -> Exec W) (eng : FlowEngine) (ctx ctx' : W)
    (n m : nat) (b : StepRef) (e : Exn) :
  let st := run truth execute n eng ctx in
  status st = Running b ->
  execute b (context st) = Raises e ctx' ->
  n < m ->
  run truth execute m eng ctx =
  {| self := eng; status := Failed e; context := ctx';
     executed := executed st ++ [b] |} /\
  ctx' = replay execute (executed st ++ [b]) ctx.
Proof.
  intros st Hst Hex Hlt. unfold st in *. clear st. unfold run in *.
  set (st := ticks truth execute n (run_enter truth eng ctx)) in *.
  assert (self st = eng) as Hself by apply self_ticks.
  assert (ticks truth execute (S n) (run_enter truth eng ctx) =
          {| self := eng; status := Failed e; context := ctx';
             executed := executed st ++ [b] |}) as Hfail.
  { rewrite ticks_S_r. fold st.
    rewrite (tick_running truth execute st b Hst). by rewrite Hex, Hself. }
  split.
  - rewrite (ticks_halted_le truth execute (S n) m); [done| |lia].
    by rewrite Hfail.
  - rewrite replay_snoc.
    pose proof (context_run truth execute n eng ctx) as Hctx.
    unfold run in Hctx.
    fold st in Hctx. by rewrite <- Hctx, Hex.
Qed.

Lemma step_exception_propagates_witness :
  status (run Scenarios.truth Scenarios.execute 1 Scenarios.failing ∅) =
    Running Scenarios.Boom /\
  Scenarios.execute Scenarios.Boom {[ "b" := VBool true ]} =
    Raises (PyExc "RuntimeError" "boom")
      (<[ "boom" := VBool true ]> {[ "b" := VBool true ]}) /\
  run Scenarios.truth Scenarios.execute 5 Scenarios.failing ∅ =
  {| self := Scenarios.failing;
     status := Failed (PyExc "RuntimeError" "boom");
     context := <[ "boom" := VBool true ]> {[ "b" := VBool true ]};
     executed := [Scenarios.B; Scenarios.Boom] |}.
Proof.
  split; [reflexivity|]. split; [reflexivity|].
  apply (step_exception_propagates Scenarios.truth Scenarios.execute
           Scenarios.failing ∅
           (<[ "boom" := VBool true ]> {[ "b" := VBool true ]}) 1 5
           Scenarios.Boom (PyExc "RuntimeError" "boom"));
    [reflexivity|reflexivity|lia].
Defined.



(** ** Further properties of the registration methods *)

Lemma lookup_next_entry self s k :
  lookup_next self s k = default None (entry self s k).
Proof.
  unfold lookup_next, entry.
  destruct (flow_map self !! s) as [inner|]; simpl; [|done].
  by destruct (inner !! k).
Qed.

Lemma entry_add_transition from_step result_key to_step self s k :
  entry (snd (add_transition from_step result_key to_step self)) s k =
  if decide (from_step = s /\ result_key = k) then Some to_step
  else entry self s k.
Proof.
  rewrite add_transition_flow_map. unfold entry. simpl.
  destruct (decide (from_step = s)) as [->|Hs].
  - rewrite lookup_insert_eq.
    destruct (decide (result_key = k)) as [->|Hk].
    + rewrite lookup_insert_eq. by rewrite decide_True.
    + rewrite lookup_insert_ne by done.
      rewrite decide_False by tauto.
      by destruct (flow_map self !! s).
  - rewrite lookup_insert_ne by done. rewrite decide_False; [done|tauto].
Qed.

Lemma registers_spec s k from_step result_key to_step :
  registers s k (AddTransition from_step result_key to_step) = true <->
  from_step = s /\ result_key = k.
Proof.
  simpl. rewrite andb_true_iff, !bool_decide_eq_true. tauto.
Qed.

Lemma entry_calls cs self s k :
  entry (snd (calls cs self)) s k =
  match last_registered s k cs with
  | Some t => Some t
  | None => entry self s k
  end.
Proof.
  revert self. induction cs as [|c cs IH]; intros self; [done|].
  rewrite calls_cons, IH. cbn [last_registered].
  destruct (last_registered s k cs) as [t|]; [done|].
  destruct c as [step|from_step result_key to_step]; [done|].
  cbn [call]. rewrite entry_add_transition.
  destruct (registers s k (AddTransition from_step result_key to_step))
    eqn:Hreg.
  - apply registers_spec in Hreg. by rewrite decide_True.
  - rewrite decide_False; [done|].
    intros Heq.
    apply (proj2 (registers_spec s k from_step result_key to_step)) in Heq.
    congruence.
Qed.

(** X1: in an engine wired by a list of calls, the table stores for each
    pair the target of the last call that registered it, and what it stored
    before when no call did; the lookup yields that target, a stored
    terminal and a missing entry both giving the terminal sentinel. *)
Theorem table_after_calls (cs : list Call) (self : FlowEngine)
    (s : StepRef) (k : string) :
  entry (snd (calls cs self)) s k =
    match last_registered s k cs with
    | Some t => Some t
    | None => entry self s k
    end /\
  lookup_next (snd (calls cs self)) s k =
    match last_registered s k cs with
    | Some t => t
    | None => lookup_next self s k
    end.
Proof.
  split; [apply entry_calls|].
  rewrite !lookup_next_entry, entry_calls.
  by destruct (last_registered s k cs).
Qed.

(** X2: no call removes an entry: a pair that has a target stored keeps
    having one, whatever calls follow. *)
Theorem registered_pair_persists (cs : list Call) (self : FlowEngine)
    (s : StepRef) (k : string) :
  is_Some (entry self s k) ->
  is_Some (entry (snd (calls cs self)) s k).
Proof.
  intros Hsome. rewrite entry_calls.
  by destruct (last_registered s k cs).
Qed.

Lemma registered_pair_persists_witness :
  is_Some (entry Client.engine Client.step_b "done") /\
  is_Some (entry (snd (calls [SetStart Client.step_c;
                              AddTransition Client.step_b "again"
                                (Some Client.step_a)] Client.engine))
             Client.step_b "done").
Proof.
  assert (is_Some (entry Client.engine Client.step_b "done")) as Hs
    by (exists None; reflexivity).
  split; [exact Hs|].
  apply (registered_pair_persists _ Client.engine Client.step_b "done" Hs).
Defined.

(** X3: the start step of an engine wired by a list of calls is the step of
    the last [set_start] call, and the previous start step when the list has
    none; [add_transition] never changes it. *)
Theorem start_step_after_calls (cs : list Call) (self : FlowEngine) :
  start_step (snd (calls cs self)) =
  match last_start cs with
  | Some s => Some s
  | None => start_step self
  end.
Proof.
  revert self. induction cs as [|c cs IH]; intros self; [done|].
  rewrite calls_cons, IH. cbn [last_start].
  destruct (last_start cs) as [s|]; [done|].
  destruct c as [step|from_step result_key to_step]; [done|].
  cbn [call]. apply start_step_add_transition.
Qed.

(** X4: registrations of two different pairs commute: the engine is the same
    whichever of the two [add_transition] calls is made first. *)
Theorem add_transition_commute (self : FlowEngine) (s1 s2 : StepRef)
    (k1 k2 : string) (t1 t2 : option StepRef) :
  (s1, k1) <> (s2, k2) ->
  snd (add_transition s1 k1 t1 (snd (add_transition s2 k2 t2 self))) =
  snd (add_transition s2 k2 t2 (snd (add_transition s1 k1 t1 self))).
Proof.
  intros Hne. rewrite !add_transition_flow_map. simpl. f_equal.
  destruct (decide (s1 = s2)) as [->|Hs].
  - assert (k1 <> k2) as Hk by congruence.
    rewrite !lookup_insert_eq. simpl. rewrite !insert_insert_eq.
    f_equal. by apply insert_insert_ne.
  - rewrite !lookup_insert_ne by done.
    by apply insert_insert_ne.
Qed.

Lemma add_transition_commute_witness :
  snd (add_transition Client.step_a "fail" (Some Client.step_c)
         (snd (add_transition Client.step_a "success" (Some Client.step_b)
                 FlowEngine_init))) =
  snd (add_transition Client.step_a "success" (Some Client.step_b)
         (snd (add_transition Client.step_a "fail" (Some Client.step_c)
                 FlowEngine_init))).
Proof.
  apply (add_transition_commute FlowEngine_init Client.step_a Client.step_a
           "fail" "success" (Some Client.step_c) (Some Client.step_b)).
  discriminate.
Defined.

(** X5: [set_start] and [add_transition] commute: an engine may be given its
    start step before, after or in the middle of its wiring. *)
Theorem set_start_add_transition_commute (self : FlowEngine)
    (step from_step : StepRef) (result_key : string)
    (to_step : option StepRef) :
  snd (set_start step
         (snd (add_transition from_step result_key to_step self))) =
  snd (add_transition from_step result_key to_step
         (snd (set_start step self))).
Proof. by rewrite !add_transition_flow_map. Qed.

(** ** Further properties of the run loop *)

Section RunMore.
Context {W : Type}.
Variable truth : StepRef -> Truth.
Variable execute : StepRef -> W -> Exec W.

Implicit Types (st : RunState (W := W)) (eng : FlowEngine) (ctx : W).

Lemma linked_snoc eng log s t :
  linked eng (log ++ [s]) ->
  (exists k, lookup_next eng s k = Some t) ->
  linked eng ((log ++ [s]) ++ [t]).
Proof.
  intros Hlog Hst. induction log as [|a log IH]; simpl in *; [done|].
  destruct log as [|b log]; simpl in *.
  - by destruct Hlog.
  - destruct Hlog as [Hab Hrest]. split; [done|]. by apply IH.
Qed.

Lemma linked_app_l eng log1 log2 :
  linked eng (log1 ++ log2) -> linked eng log1.
Proof.
  induction log1 as [|a log1 IH]; [done|].
  destruct log1 as [|b log1]; [done|].
  simpl. intros [Hab Hrest]. split; [done|]. by apply IH.
Qed.

Lemma linked_elem_of eng log t :
  linked eng log -> t ∈ log ->
  head log = Some t \/
  exists s k, s ∈ log /\ lookup_next eng s k = Some t.
Proof.
  induction log as [|a log IH]; intros Hlog Hin.
  - by apply elem_of_nil in Hin.
  - apply elem_of_cons in Hin as [->|Hin]; [by left|]. right.
    destruct log as [|b log]; [by apply elem_of_nil in Hin|].
    destruct Hlog as [[k Hab] Hrest].
    destruct (IH Hrest Hin) as [Hhd|(s & k' & Hs & Hk)].
    + simpl in Hhd. injection Hhd as <-.
      exists a, k. split; [apply list_elem_of_here|done].
    + exists s, k'. split; [by apply list_elem_of_further|done].
Qed.

(** The steps entered by a run start at the start step and follow the
    table. *)
Lemma entered_tick st :
  linked (self st) (entered st) ->
  linked (self (tick truth execute st)) (entered (tick truth execute st)) /\
  head (entered (tick truth execute st)) = head (entered st).
Proof.
  unfold entered, tick. intros Hlog.
  destruct (status st) as [s| |] eqn:Hst; [|by rewrite Hst..].
  destruct (execute s (context st)) as [k c'|e c']; simpl.
  - destruct (lookup_next (self st) s k) as [t|] eqn:Hk; simpl.
    + destruct (truth t); simpl.
      * split; [apply linked_snoc; eauto|].
        rewrite <- (assoc_L (++)). by destruct (executed st).
      * by rewrite (right_id_L [] (++)).
      * by rewrite (right_id_L [] (++)).
    + by rewrite (right_id_L [] (++)).
  - by rewrite (right_id_L [] (++)).
Qed.

Lemma entered_run fuel eng ctx :
  linked eng (entered (run truth execute fuel eng ctx)) /\
  (forall s, head (entered (run truth execute fuel eng ctx)) = Some s ->
             start_step eng = Some s).
Proof.
  unfold run. induction fuel as [|n [IHl IHh]].
  - unfold entered, run_enter. simpl.
    destruct (start_step eng) as [a|]; simpl; [|done].
    destruct (truth a); simpl; [|done..].
    split; [done|]. by intros s [= <-].
  - rewrite ticks_S_r.
    pose proof (entered_tick (ticks truth execute n
                                (run_enter truth eng ctx))) as Ht.
    rewrite self_tick, self_ticks in Ht.
    change (self (run_enter truth eng ctx)) with eng in Ht.
    destruct (Ht IHl) as [Hl Hh].
    split; [done|]. by rewrite Hh.
Qed.

Lemma length_executed_tick st :
  length (executed (tick truth execute st)) =
  match status st with
  | Running _ => S (length (executed st))
  | Terminated | Failed _ => length (executed st)
  end.
Proof.
  unfold tick. destruct (status st); [|done..].
  destruct (execute _ _); simpl; rewrite length_app; simpl; lia.
Qed.

(** A run continued behind a log, on an engine with the same lookups. *)
Lemma tick_resumed eng pre st :
  (forall s k, lookup_next (self st) s k = lookup_next eng s k) ->
  tick truth execute (resumed eng pre st) =
  resumed eng pre (tick truth execute st).
Proof.
  intros Hext. unfold tick, resumed. simpl.
  destruct (status st) as [s| |] eqn:Hst; [|by rewrite Hst..].
  destruct (execute s (context st)) as [k c'|e c']; simpl;
    rewrite ?Hext; by rewrite (assoc_L (++)).
Qed.

Lemma ticks_resumed eng pre n st :
  (forall s k, lookup_next (self st) s k = lookup_next eng s k) ->
  ticks truth execute n (resumed eng pre st) =
  resumed eng pre (ticks truth execute n st).
Proof.
  intros Hext. induction n as [|n IH]; [done|].
  rewrite !ticks_S_r, IH. apply tick_resumed.
  by rewrite self_ticks.
Qed.

(** With ranks that every transition lowers, the loop is left before the
    fuel is as large as the rank of the current step. *)
Lemma ticks_ranked (rank : StepRef -> nat) n st :
  (forall s k t, lookup_next (self st) s k = Some t -> rank t < rank s) ->
  (forall s, status st = Running s -> rank s < n) ->
  halted (ticks truth execute n st).
Proof.
  revert st. induction n as [|n IH]; intros st Hrank Hcur.
  - unfold halted. simpl. destruct (status st) as [s| |] eqn:Hst; [|done..].
    specialize (Hcur s eq_refl). lia.
  - rewrite ticks_S. apply IH.
    + by rewrite self_tick.
    + intros t Ht. unfold tick in Ht.
      destruct (status st) as [s| |] eqn:Hst.
      * specialize (Hcur s eq_refl).
        destruct (execute s (context st)) as [k c'|e c']; simpl in Ht;
          [|done].
        apply loop_test_running in Ht as [Hk _].
        specialize (Hrank s k t Hk). lia.
      * by rewrite Hst in Ht.
      * by rewrite Hst in Ht.
Qed.

(** The loop is only ever about to execute a step whose truth test is
    true. *)
Lemma run_running_truthy n eng ctx s :
  status (run truth execute n eng ctx) = Running s -> truth s = Truthy.
Proof.
  unfold run. revert s. induction n as [|n IH]; intros s Hs.
  - by apply loop_test_running in Hs as [_ Hs].
  - rewrite ticks_S_r in Hs. unfold tick in Hs.
    destruct (status (ticks truth execute n (run_enter truth eng ctx)))
      as [t| |] eqn:Hst.
    + destruct (execute t _) as [k c'|e c']; simpl in Hs; [|done].
      by apply loop_test_running in Hs as [_ Hs].
    + by rewrite Hst in Hs.
    + by rewrite Hst in Hs.
Qed.

End RunMore.

Lemma length_executed_run {W : Type} (truth : StepRef -> Truth)
    (execute : StepRef -> W -> Exec W)
    (n : nat) (eng : FlowEngine) (ctx : W) :
  length (executed (run truth execute n eng ctx)) <= n /\
  (forall s, status (run truth execute n eng ctx) = Running s ->
             length (executed (run truth execute n eng ctx)) = n).
Proof.
  unfold run. induction n as [|n [IHle IHeq]].
  - simpl. split; [lia|done].
  - rewrite ticks_S_r, length_executed_tick.
    destruct (status (ticks truth execute n (run_enter truth eng ctx)))
      as [s| |] eqn:Hst.
    + rewrite (IHeq s eq_refl). split; [lia|done].
    + split; [lia|]. intros s. rewrite tick_halted; [by rewrite Hst|].
      unfold halted. by rewrite Hst.
    + split; [lia|]. intros s. rewrite tick_halted; [by rewrite Hst|].
      unfold halted. by rewrite Hst.
Qed.

(** X6: a run only follows the table: the first step it executes is the
    start step, each step it executes after another is a target stored for
    that other step, and so every executed step is the start step or the
    target of a transition out of an executed step. *)
Theorem executed_steps_follow_table {W : Type}
    (truth : StepRef -> Truth)
    (execute : StepRef -> W -> Exec W) (fuel : nat) (eng : FlowEngine)
    (ctx : W) :
  let log := executed (run truth execute fuel eng ctx) in
  linked eng log /\
  (forall s, head log = Some s -> start_step eng = Some s) /\
  (forall t, t ∈ log ->
             start_step eng = Some t \/
             exists s k, s ∈ log /\ lookup_next eng s k = Some t).
Proof.
  intros log. destruct (entered_run truth execute fuel eng ctx) as [Hl Hh].
  unfold entered in Hl, Hh. fold log in Hl, Hh.
  assert (linked eng log) as Hlog by (by eapply linked_app_l).
  assert (forall s, head log = Some s -> start_step eng = Some s) as Hhead.
  { intros s Hs. apply Hh. destruct log; [done|]. by simpl in *. }
  repeat split; [done|done|].
  intros t Ht. destruct (linked_elem_of eng log t Hlog Ht) as [Hhd|Hin].
  - left. by apply Hhead.
  - by right.
Qed.

Lemma executed_steps_follow_table_witness :
  Client.step_b ∈
    executed (run Client.truth Client.execute 2 Client.engine
                Client.initial_context) /\
  exists s k,
    s ∈ executed (run Client.truth Client.execute 2 Client.engine
                    Client.initial_context)
    /\ lookup_next Client.engine s k = Some Client.step_b.
Proof.
  assert (Client.step_b ∈
            executed (run Client.truth Client.execute 2 Client.engine
                        Client.initial_context)) as Hin.
  { apply list_elem_of_further, list_elem_of_here. }
  split; [exact Hin|].
  destruct (executed_steps_follow_table Client.truth Client.execute 2
              Client.engine
              Client.initial_context) as (_ & _ & Hreach).
  destruct (Hreach Client.step_b Hin) as [Hstart|Hfrom].
  - discriminate Hstart.
  - exact Hfrom.
Defined.

(** X7: a workflow without cycles ends.  When every stored transition
    leads to a step of lower rank, a run from the start step [a] leaves the
    loop, by a return or by a step's exception, within [rank a + 1]
    iterations, whatever the steps do and return. *)
Theorem ranked_workflow_halts {W : Type} (truth : StepRef -> Truth)
    (execute : StepRef -> W -> Exec W)
    (eng : FlowEngine) (rank : StepRef -> nat) (a : StepRef) (ctx : W)
    (fuel : nat) :
  (forall s k t, lookup_next eng s k = Some t -> rank t < rank s) ->
  start_step eng = Some a ->
  rank a < fuel ->
  halted (run truth execute fuel eng ctx) /\
  run truth execute fuel eng ctx = run truth execute (S (rank a)) eng ctx /\
  length (executed (run truth execute fuel eng ctx)) <= S (rank a).
Proof.
  intros Hrank Hstart Hfuel.
  assert (halted (run truth execute (S (rank a)) eng ctx)) as Hhalt.
  { unfold run. apply (ticks_ranked truth execute rank); [done|].
    intros s Hs. unfold run_enter in Hs. simpl in Hs.
    rewrite Hstart in Hs.
    apply loop_test_running in Hs as [[= <-] _]. lia. }
  assert (run truth execute fuel eng ctx =
          run truth execute (S (rank a)) eng ctx) as ->.
  { unfold run in *. apply ticks_halted_le; [done|lia]. }
  repeat split; [done|apply length_executed_run].
Qed.

Lemma client_rank_decreases s k t :
  lookup_next Client.engine s k = Some t -> client_rank t < client_rank s.
Proof.
  unfold Client.engine, Client.wiring. rewrite !calls_cons. simpl.
  rewrite !lookup_next_add_transition. intros Hk.
  repeat case_decide; destruct_and?; simplify_eq; try done;
    unfold client_rank; simpl; lia.
Qed.

Lemma ranked_workflow_halts_witness :
  start_step Client.engine = Some Client.step_a /\
  halted (run Client.truth Client.execute 7 Client.engine
            Client.initial_context).
Proof.
  split; [reflexivity|].
  apply (ranked_workflow_halts Client.truth Client.execute Client.engine
           client_rank Client.step_a Client.initial_context 7).
  - exact client_rank_decreases.
  - reflexivity.
  - unfold client_rank. simpl. lia.
Defined.

(** X8: a run can be taken up where it stands.  When after [n] iterations
    the loop is about to execute [s], the run after [m] more iterations is
    the run of [m] iterations of the same engine started at [s], by
    [set_start], on the context reached, with its log behind the log so
    far. *)
Theorem run_resume {W : Type} (truth : StepRef -> Truth)
    (execute : StepRef -> W -> Exec W)
    (eng : FlowEngine) (ctx : W) (n m : nat) (s : StepRef) :
  status (run truth execute n eng ctx) = Running s ->
  run truth execute (n + m) eng ctx =
  resumed eng (executed (run truth execute n eng ctx))
    (run truth execute m (snd (set_start s eng))
       (context (run truth execute n eng ctx))).
Proof.
  intros Hs.
  pose proof (run_running_truthy truth execute n eng ctx s Hs) as Htrue.
  unfold run in *. rewrite ticks_add.
  pose proof (self_ticks truth execute n (run_enter truth eng ctx)) as Hself.
  change (self (run_enter truth eng ctx)) with eng in Hself.
  set (st := ticks truth execute n (run_enter truth eng ctx)) in *.
  rewrite <- ticks_resumed by done.
  f_equal. unfold resumed, run_enter. simpl. rewrite Htrue.
  rewrite (right_id_L [] (++)). destruct st; simpl in *. by subst.
Qed.

Lemma run_resume_witness :
  status (run Client.truth Client.execute 1 Client.engine
            Client.initial_context) =
    Running Client.step_b /\
  run Client.truth Client.execute (1 + 1) Client.engine
    Client.initial_context =
  resumed Client.engine
    (executed (run Client.truth Client.execute 1 Client.engine
                 Client.initial_context))
    (run Client.truth Client.execute 1
       (snd (set_start Client.step_b Client.engine))
       (context (run Client.truth Client.execute 1 Client.engine
                   Client.initial_context))).
Proof.
  split; [reflexivity|].
  apply (run_resume Client.truth Client.execute Client.engine
           Client.initial_context 1 1 Client.step_b).
  reflexivity.
Defined.

(** ** The client workflow on any context *)

Lemma client_leaf_lookup (s : StepRef) (k : string) :
  s = Client.step_b \/ s = Client.step_c ->
  lookup_next Client.engine s k = None.
Proof.
  unfold Client.engine, Client.wiring. rewrite !calls_cons. simpl.
  rewrite !lookup_next_add_transition. intros [-> | ->];
    repeat case_decide; destruct_and?; simplify_eq; done.
Qed.

(** The run of the client workflow, by what the truth test in [StepA]
    gives. *)
Lemma client_run_by_truth (w : Client.Store) (fuel : nat) :
  2 <= fuel ->
  let out lines :=
    {| Client.dict := Client.dict w;
       Client.stdout := Client.stdout w ++ lines |} in
  run Client.truth Client.execute fuel Client.engine w =
  match truthy (Client.dict_get w "data_valid" (VBool false)) with
  | Truthy =>
      {| self := Client.engine; status := Terminated;
         context := out ["StepA: validating data"; "StepB: processing data"];
         executed := [Client.step_a; Client.step_b] |}
  | Falsy =>
      {| self := Client.engine; status := Terminated;
         context := out ["StepA: validating data"; "StepC: handling failure"];
         executed := [Client.step_a; Client.step_c] |}
  | TruthRaises e =>
      {| self := Client.engine; status := Failed e;
         context := out ["StepA: validating data"];
         executed := [Client.step_a] |}
  end.
Proof.
  intros Hfuel out.
  assert (Client.execute Client.step_a w =
          Client.StepA_execute w) as HA by reflexivity.
  unfold Client.StepA_execute in HA. simpl in HA.
  change (Client.dict_get (Client.print "StepA: validating data" w))
    with (Client.dict_get w) in HA.
  destruct (truthy (Client.dict_get w "data_valid" (VBool false)))
    as [| |e].
  - rewrite (run_two_steps Client.truth Client.execute Client.engine
               Client.step_a Client.step_b "success" w _ fuel
               eq_refl eq_refl eq_refl HA eq_refl);
      [|intros k'; apply client_leaf_lookup; by left|done].
    unfold out, Client.execute, Client.StepB_execute, Client.print. simpl.
    by rewrite <- (assoc_L (++)).
  - rewrite (run_two_steps Client.truth Client.execute Client.engine
               Client.step_a Client.step_c "fail" w _ fuel
               eq_refl eq_refl eq_refl HA eq_refl);
      [|intros k'; apply client_leaf_lookup; by right|done].
    unfold out, Client.execute, Client.StepC_execute, Client.print. simpl.
    by rewrite <- (assoc_L (++)).
  - assert (run Client.truth Client.execute 1 Client.engine w =
            {| self := Client.engine; status := Failed e;
               context := out ["StepA: validating data"];
               executed := [Client.step_a] |}) as Hone.
    { unfold run. rewrite ticks_S. simpl.
      rewrite (tick_running Client.truth Client.execute
                 (run_enter Client.truth Client.engine w) Client.step_a
                 eq_refl).
      simpl. by rewrite HA. }
    unfold run in *.
    rewrite (ticks_halted_le Client.truth Client.execute 1 fuel);
      [done| |lia].
    by rewrite Hone.
Qed.

(** X10: the run of the workflow the module wires, on any context.  When
    the context maps "data_valid" to a value whose truth test is true, the
    run returns after [StepA] and [StepB]; when the key is missing or the
    value's truth test is false, it returns after [StepA] and [StepC]; when
    the value's truth test raises, the run ends with that exception after
    [StepA] alone.  The context dict is left as it was and the executed
    steps' lines are printed, in order. *)
Theorem client_run_any_context (w : Client.Store) (fuel : nat) :
  2 <= fuel ->
  let out lines :=
    {| Client.dict := Client.dict w;
       Client.stdout := Client.stdout w ++ lines |} in
  run Client.truth Client.execute fuel Client.engine w =
  match Client.dict w !! "data_valid" with
  | None | Some VNone | Some (VBool false) | Some (VInt Z0)
  | Some (VStr EmptyString) | Some (VList [])
  | Some (VOther _ Falsy) =>
      {| self := Client.engine; status := Terminated;
         context := out ["StepA: validating data"; "StepC: handling failure"];
         executed := [Client.step_a; Client.step_c] |}
  | Some (VBool true) | Some (VInt (Zpos _)) | Some (VInt (Zneg _))
  | Some (VStr (String _ _)) | Some (VList (_ :: _))
  | Some (VOther _ Truthy) =>
      {| self := Client.engine; status := Terminated;
         context := out ["StepA: validating data"; "StepB: processing data"];
         executed := [Client.step_a; Client.step_b] |}
  | Some (VOther _ (TruthRaises e)) =>
      {| self := Client.engine; status := Failed e;
         context := out ["StepA: validating data"];
         executed := [Client.step_a] |}
  end.
Proof.
  intros Hfuel out.
  rewrite (client_run_by_truth w fuel Hfuel). unfold Client.dict_get.
  destruct (Client.dict w !! "data_valid") as [v|]; simpl; [|done].
  rewrite truthy_cases.
  destruct v as [|[]|[]|[]|[]|? []]; reflexivity.
Qed.

Lemma client_run_any_context_witness :
  executed (run Client.truth Client.execute 5 Client.engine
              {| Client.dict := {[ "data_valid" := VStr "" ]};
                 Client.stdout := [] |}) =
    [Client.step_a; Client.step_c] /\
  executed (run Client.truth Client.execute 5 Client.engine
              {| Client.dict := {[ "data_valid" := VInt 3 ]};
                 Client.stdout := [] |}) =
    [Client.step_a; Client.step_b] /\
  status (run Client.truth Client.execute 5 Client.engine
            {| Client.dict :=
                 {[ "data_valid" :=
                      VOther 1 (TruthRaises (PyExc "ValueError" "")) ]};
               Client.stdout := [] |}) =
    Failed (PyExc "ValueError" "").
Proof.
  split; [|split].
  - rewrite (client_run_any_context
               {| Client.dict := {[ "data_valid" := VStr "" ]};
                  Client.stdout := [] |} 5); [reflexivity|lia].
  - rewrite (client_run_any_context
               {| Client.dict := {[ "data_valid" := VInt 3 ]};
                  Client.stdout := [] |} 5); [reflexivity|lia].
  - rewrite (client_run_any_context
               {| Client.dict :=
                    {[ "data_valid" :=
                         VOther 1 (TruthRaises (PyExc "ValueError" "")) ]};
                  Client.stdout := [] |} 5); [reflexivity|lia].
Defined.
